(** * ngrx-data: the entity dispatcher and the live selectors

    A shallow embedding of [lib/src/entity-dispatcher.ts] (the
    command-to-action translation layer) and of the part of the live
    selectors that the specification describes, together with the
    properties the specification states about them.

    JavaScript values are modelled dynamically (the dispatcher inspects
    them with [typeof] at run time); exceptions and the store are threaded
    through a small state-and-exception monad. *)

From Stdlib Require Import ZArith.
From stdpp Require Import base option list strings pretty gmap.

Local Open Scope Z_scope.
Local Open Scope string_scope.
Local Open Scope list_scope.

(** ** JavaScript values *)

Set Warnings "-register-all".

Module Js.

(** The values the dispatcher can be handed.  Numbers are restricted to
    integers: the dispatcher never computes with them, it only asks for
    their [typeof].  An object is its list of own fields, the first
    binding of a name being the one property access sees. *)
Inductive Value : Type :=
| VUndefined
| VNull
| VBool (b : bool)
| VNum (n : Z)
| VStr (s : string)
| VObj (fields : list (string * Value))
| VArr (items : list Value).

(** What a JavaScript function can throw. *)
Inductive Error : Type :=
| TypeError (msg : string)
| Thrown (v : Value).

(** The result of evaluating an expression that may throw. *)
Inductive Outcome (A : Type) : Type :=
| Returned (a : A)
| Threw (e : Error).
Arguments Returned {A} a.
Arguments Threw {A} e.

#[export] Instance Outcome_ret : MRet Outcome := fun A a => Returned a.
#[export] Instance Outcome_bind : MBind Outcome := fun A B f m =>
  match m with
  | Returned a => f a
  | Threw e => Threw e
  end.

(** [typeof v]; note that [typeof null] and [typeof []] are ["object"]. *)
Definition typeof (v : Value) : string :=
  match v with
  | VUndefined => "undefined"
  | VNull => "object"
  | VBool _ => "boolean"
  | VNum _ => "number"
  | VStr _ => "string"
  | VObj _ => "object"
  | VArr _ => "object"
  end.

(** Own-field lookup of an object. *)
Fixpoint own (fields : list (string * Value)) (name : string) : option Value :=
  match fields with
  | [] => None
  | (n, v) :: rest => if String.eqb n name then Some v else own rest name
  end.

(** [entity.id].  Reading a property of [undefined] or [null] throws a
    TypeError; none of the built-in prototypes defines [id], so on
    primitives, on arrays and on objects without that field the
    result is [undefined]. *)
Definition get_id (entity : Value) : Outcome Value :=
  match entity with
  | VUndefined => Threw (TypeError "Cannot read property 'id' of undefined")
  | VNull => Threw (TypeError "Cannot read property 'id' of null")
  | VObj fields => Returned (default VUndefined (own fields "id"))
  | VBool _ | VNum _ | VStr _ | VArr _ => Returned VUndefined
  end.

(** [Array.prototype.map] with a callback that may throw: elements are
    visited in order and the first exception aborts the traversal. *)
Fixpoint map (f : Value -> Outcome Value) (items : list Value)
  : Outcome (list Value) :=
  match items with
  | [] => Returned []
  | x :: rest => y ← f x; ys ← map f rest; Returned (y :: ys)
  end.

(** A primary key is a number or a string. *)
Definition isKey (v : Value) : bool :=
  match v with
  | VNum _ | VStr _ => true
  | _ => false
  end.

(** An entity is a plain object. *)
Definition isEntity (v : Value) : bool :=
  match v with
  | VObj _ => true
  | _ => false
  end.

(** An argument declared as an array type [X[]]: without strict null
    checks it may also be absent. *)
Inductive ArrayArg : Type :=
| ArgUndefined
| ArgNull
| ArgArray (items : list Value).

(** [!args] for an argument of array type: arrays are truthy, even when
    empty. *)
Definition not (args : ArrayArg) : bool :=
  match args with
  | ArgUndefined | ArgNull => true
  | ArgArray _ => false
  end.

(** [args.length] and [args[0]], only ever evaluated on an array here. *)
Definition length (args : ArrayArg) : nat :=
  match args with
  | ArgArray items => List.length items
  | _ => 0%nat
  end.

Definition elements (args : ArrayArg) : list Value :=
  match args with
  | ArgArray items => items
  | _ => []
  end.

Definition index (args : ArrayArg) (i : nat) : Value :=
  default VUndefined (elements args !! i).

End Js.

Import Js.

(** ** Actions, collections, cache and store *)

(** The operation vocabulary ([EntityOp] of [entity.actions.ts], which
    the dispatcher imports). *)
Inductive EntityOp : Type :=
| QUERY_ALL | QUERY_ALL_SUCCESS | QUERY_ALL_ERROR
| QUERY_MANY | QUERY_MANY_SUCCESS | QUERY_MANY_ERROR
| QUERY_BY_KEY | QUERY_BY_KEY_SUCCESS | QUERY_BY_KEY_ERROR
| SAVE_ADD | SAVE_ADD_SUCCESS | SAVE_ADD_ERROR
| SAVE_DELETE | SAVE_DELETE_SUCCESS | SAVE_DELETE_ERROR
| SAVE_UPDATE | SAVE_UPDATE_SUCCESS | SAVE_UPDATE_ERROR
| ADD_ALL | ADD_MANY | ADD_ONE
| REMOVE_ALL | REMOVE_MANY | REMOVE_ONE
| UPDATE_MANY | UPDATE_ONE
| SET_FILTER.

(** [new EntityAction(entityName, op, payload)]: the action record holds
    the three constructor arguments; an omitted payload is [undefined]. *)
Record EntityAction : Type := new_EntityAction {
  action_entityName : string;
  action_op : EntityOp;
  action_payload : Value
}.

(** A primary key as the collection stores it. *)
Inductive Key : Type :=
| KNum (n : Z)
| KStr (s : string).

(** The normalized per-type collection: ordered keys, key-to-entity map
    (property names of a JavaScript object are strings), filter pattern,
    loading flag and the extension fields. *)
Record EntityCollection : Type := {
  ids : list Key;
  entities : gmap string Value;
  filter : Value;
  loading : bool;
  additional : gmap string Value
}.

(** The cache maps an entity-type name to its collection. *)
Abbreviation EntityCache := (gmap string EntityCollection).

(** The hosting store ([Store<EntityCache>] of @ngrx/store): its reducer,
    its current state, and the actions it was handed, oldest first. *)
Record Store : Type := {
  reducer : EntityCache -> EntityAction -> EntityCache;
  state : EntityCache;
  dispatched : list EntityAction
}.

(** [store.dispatch(action)]: the action is delivered to the reducer and
    the state is replaced by the reducer's result. *)
Definition Store_dispatch (store : Store) (action : EntityAction) : Store :=
  {| reducer := reducer store;
     state := reducer store (state store) action;
     dispatched := dispatched store ++ [action] |}.

(** ** Commands that run against the store *)

(** A method body: it reads and replaces the store and either returns or
    throws. *)
Definition Cmd (A : Type) : Type := Store -> Outcome A * Store.

#[export] Instance Cmd_ret : MRet Cmd := fun A a store => (Returned a, store).
#[export] Instance Cmd_bind : MBind Cmd := fun A B f m store =>
  match m store with
  | (Returned a, store') => f a store'
  | (Threw e, store') => (Threw e, store')
  end.

(** A pure expression evaluated inside a method body. *)
Definition eval {A : Type} (o : Outcome A) : Cmd A := fun store => (o, store).

(** ** The dispatcher *)

(** [IdSelector<T>]: a function from an entity to its primary key. *)
Abbreviation IdSelector := (Value -> Outcome Value).

(** The fields of an [EntityDispatcher]; its [store] field is a reference
    to the shared store, which the methods below receive as their state. *)
Record EntityDispatcher : Type := {
  entityName : string;
  selectId : IdSelector
}.

(** [new EntityDispatcher(entityName, store, selectId)]; an omitted
    [selectId] takes the constructor's default. *)
Definition EntityDispatcher_new (entityName : string)
    (selectId : option IdSelector) : EntityDispatcher :=
  {| entityName := entityName;
     selectId := default (fun entity => get_id entity) selectId |}.

(** [createEntityDispatcher(entityName, store, selectId)]; an omitted
    [selectId] takes the function's own default and is then passed on. *)
Definition createEntityDispatcher (entityName : string)
    (selectId : option IdSelector) : EntityDispatcher :=
  let selectId := default (fun entity => get_id entity) selectId in
  EntityDispatcher_new entityName (Some selectId).

(** The [Update<T>] record [{ id, changes }] of [ngrx-entity-models]. *)
Definition UpdateT (id changes : Value) : Value :=
  VObj [("id", id); ("changes", changes)].

Section Methods.

Variable this : EntityDispatcher.

Definition dispatch (op : EntityOp) (payload : Value) : Cmd unit :=
  fun store =>
    (Returned tt,
     Store_dispatch store (new_EntityAction (entityName this) op payload)).

Definition toUpdate (entity : Value) : Outcome Value :=
  id ← selectId this entity;
  Returned (UpdateT id entity).

Definition getKey (arg : Value) : Outcome Value :=
  if bool_decide (typeof arg = "object") then selectId this arg
  else Returned arg.

Definition add (entity : Value) : Cmd unit :=
  dispatch SAVE_ADD entity.

Definition delete (arg : Value) : Cmd unit :=
  key ← eval (getKey arg);
  dispatch SAVE_DELETE key.

Definition getAll : Cmd unit :=
  dispatch QUERY_ALL VUndefined.

Definition getByKey (key : Value) : Cmd unit :=
  dispatch QUERY_BY_KEY key.

Definition getWithQuery (queryParams : Value) : Cmd unit :=
  dispatch QUERY_MANY queryParams.

Definition update (entity : Value) : Cmd unit :=
  update ← eval (toUpdate entity);
  dispatch SAVE_UPDATE update.

Definition addAllToCache (entities : Value) : Cmd unit :=
  dispatch ADD_ALL entities.

Definition addOneToCache (entity : Value) : Cmd unit :=
  dispatch ADD_ONE entity.

Definition addManyToCache (entities : Value) : Cmd unit :=
  dispatch ADD_MANY entities.

Definition clearCache : Cmd unit :=
  dispatch REMOVE_ALL VUndefined.

Definition removeOneFromCache (arg : Value) : Cmd unit :=
  key ← eval (getKey arg);
  dispatch REMOVE_ONE key.

Definition removeManyFromCache (args : ArrayArg) : Cmd unit :=
  if Js.not args || (Js.length args =? 0)%nat then mret tt
  else
    keys ← eval (if bool_decide (typeof (Js.index args 0) = "object")
                 then Js.map getKey (Js.elements args)
                 else Returned (Js.elements args));
    dispatch REMOVE_MANY (VArr keys).

Definition updateOneInCache (entity : Value) : Cmd unit :=
  update ← eval (toUpdate entity);
  dispatch UPDATE_ONE update.

Definition updateManyInCache (entities : ArrayArg) : Cmd unit :=
  if Js.not entities || (Js.length entities =? 0)%nat then mret tt
  else
    updates ← eval (Js.map toUpdate (Js.elements entities));
    dispatch UPDATE_MANY (VArr updates).

Definition setFilter (pattern : Value) : Cmd unit :=
  dispatch SET_FILTER pattern.

End Methods.

(** ** Calls of the public command methods *)

(** One call of a method of the [EntityCommands] interface, with its
    argument. *)
Inductive Command : Type :=
| Add (entity : Value)
| Delete (arg : Value)
| GetAll
| GetByKey (key : Value)
| GetWithQuery (queryParams : Value)
| Update (entity : Value)
| AddAllToCache (entities : Value)
| AddOneToCache (entity : Value)
| AddManyToCache (entities : Value)
| ClearCache
| RemoveOneFromCache (arg : Value)
| RemoveManyFromCache (args : ArrayArg)
| UpdateOneInCache (entity : Value)
| UpdateManyInCache (entities : ArrayArg)
| SetFilter (pattern : Value).

Definition invoke (this : EntityDispatcher) (c : Command) : Cmd unit :=
  match c with
  | Add entity => add this entity
  | Delete arg => delete this arg
  | GetAll => getAll this
  | GetByKey key => getByKey this key
  | GetWithQuery queryParams => getWithQuery this queryParams
  | Update entity => update this entity
  | AddAllToCache entities => addAllToCache this entities
  | AddOneToCache entity => addOneToCache this entity
  | AddManyToCache entities => addManyToCache this entities
  | ClearCache => clearCache this
  | RemoveOneFromCache arg => removeOneFromCache this arg
  | RemoveManyFromCache args => removeManyFromCache this args
  | UpdateOneInCache entity => updateOneInCache this entity
  | UpdateManyInCache entities => updateManyInCache this entities
  | SetFilter pattern => setFilter this pattern
  end.


(** ** Concrete dispatchers, entities and stores used in examples *)

(** A store whose reducer ignores every action, with an empty cache and
    nothing dispatched yet. *)
Definition idle_store : Store :=
  {| reducer := fun cache _ => cache; state := ∅; dispatched := [] |}.

(** A dispatcher for heroes, with the default key selector. *)
Definition hero_dispatcher : EntityDispatcher :=
  EntityDispatcher_new "Hero" None.

(** A dispatcher for villains, whose primary key is the [key] field. *)
Definition villain_selectId : IdSelector := fun entity =>
  match entity with
  | VUndefined | VNull => Threw (TypeError "Cannot read property 'key'")
  | VObj fields => Returned (default VUndefined (own fields "key"))
  | _ => Returned VUndefined
  end.

Definition villain_dispatcher : EntityDispatcher :=
  createEntityDispatcher "Villain" (Some villain_selectId).

Definition hero (id : Z) (name : string) : Value :=
  VObj [("id", VNum id); ("name", VStr name)].

Definition villain (key name : string) : Value :=
  VObj [("key", VStr key); ("name", VStr name)].

(** ** Selectors and their live counterparts *)

(** A pure selector derives a view value from a collection. *)
Definition Selector (A : Type) : Type := EntityCollection -> A.

(** Modelled from the spec: the name under which the entity map of a
    collection files a key ([entity.selectors.ts] and the reducer are not
    part of the sources); a number is filed under its decimal numeral. *)
Definition propertyKey (id : Key) : string :=
  match id with
  | KNum n => pretty n
  | KStr s => s
  end.

(** Modelled from the spec: [selectEntities] of [entity.selectors.ts],
    "all entities as an ordered sequence per ids". *)
Definition selectEntities : Selector (list Value) := fun collection =>
  (fun id => default VUndefined (entities collection !! propertyKey id))
    <$> ids collection.

(** Modelled from the spec: [selectIds] of [entity.selectors.ts]. *)
Definition selectIds : Selector (list Key) := fun collection => ids collection.

(** Modelled from the spec: the selector of the [loading] flag. *)
Definition selectLoading : Selector bool := fun collection => loading collection.

(** Modelled from the spec: "one selector per additionalCollectionState
    field"; a field the collection does not hold reads as [undefined]. *)
Definition selectAdditional (field : string) : Selector Value := fun collection =>
  default VUndefined (additional collection !! field).

(** Modelled from the spec: [createEmptyEntityCollection] of
    [entity-definition.ts], the collection substituted when none was
    supplied: no keys, no entities, not loading, no extension fields. *)
Definition createEmptyEntityCollection : EntityCollection :=
  {| ids := []; entities := ∅; filter := VUndefined; loading := false;
     additional := ∅ |}.

(** Modelled from the spec: [createCachedCollectionSelector] of
    [entity.selectors$.ts] (only its tests are part of the sources).  It
    selects the collection of the given entity type from the cache and
    substitutes the initial state, or the empty collection when none was
    supplied, while the cache holds no such collection. *)
Definition createCachedCollectionSelector (collectionName : string)
    (initialState : option EntityCollection) : EntityCache -> EntityCollection :=
  let initialState := default createEmptyEntityCollection initialState in
  fun cache => default initialState (cache !! collectionName).

(** Modelled from the spec: a live view bound to the store's change
    stream, given by the value it emits for each state of the cache. *)
Definition Observable (A : Type) : Type := EntityCache -> A.

(** Modelled from the spec: the live counterpart of a selector, the
    selector composed with the cached-collection selector. *)
Definition live {A : Type} (collection : EntityCache -> EntityCollection)
    (selector : Selector A) : Observable A :=
  fun cache => selector (collection cache).

(** Modelled from the spec: the [selectors$] of an entity type
    ([EntitySelectors$] of [entity.selectors$.ts]; the [$] of the source
    names is written [_S]). *)
Record EntitySelectors_S : Type := {
  entities_S : Observable (list Value);
  ids_S : Observable (list Key);
  loading_S : Observable bool;
  additional_S : string -> Observable Value
}.

(** Modelled from the spec: [EntitySelectors$Factory.create(entityName,
    selectors, defaultCollectionState)]. *)
Definition EntitySelectors_S_create (entityName : string)
    (defaultCollectionState : option EntityCollection) : EntitySelectors_S :=
  let collection :=
    createCachedCollectionSelector entityName defaultCollectionState in
  {| entities_S := live collection selectEntities;
     ids_S := live collection selectIds;
     loading_S := live collection selectLoading;
     additional_S := fun field => live collection (selectAdditional field) |}.

(** Modelled from the spec: subscribing to a live view hands the
    subscriber the value for the current state of the store; the store is
    read, and is the store the caller continues with. *)
Definition subscribe {A : Type} (view : Observable A) : Store -> A * Store :=
  fun store => (view (state store), store).

(** The default state of the tests of the live selectors. *)
Definition defaultHeroState : EntityCollection :=
  {| ids := [KNum 1];
     entities := {[ "1" := VObj [("id", VNum 1); ("name", VStr "A")] ]};
     filter := VStr "";
     loading := false;
     additional := {[ "foo" := VStr "foo foo"; "bar" := VNum 42 ]} |}.

(** ** Properties as the specification words them *)


(** The claim as the specification words it: the command raises an error
    to its caller and dispatches nothing. *)
Definition raises_synchronously (m : Cmd unit) (s : Store) : Prop :=
  exists err : Error, m s = (Threw err, s).

(** The claim as the specification words it: the call hands exactly one
    [REMOVE_MANY] action to the store and its payload is an array of
    keys. *)
Definition dispatches_keys (this : EntityDispatcher) (items : list Value)
    (s : Store) : Prop :=
  exists keys : list Value,
    forallb isKey keys = true /\
    removeManyFromCache this (ArgArray items) s =
    (Returned tt,
     Store_dispatch s
       (new_EntityAction (entityName this) REMOVE_MANY (VArr keys))).

(** The claim as the specification words it, for the bulk command: every
    element is resolved by [getKey], entities through [selectId] and raw
    keys unchanged. *)
Definition resolves_every_element (this : EntityDispatcher)
    (items : list Value) (s : Store) : Prop :=
  exists keys : list Value,
    Forall2 (fun arg k => getKey this arg = Returned k) items keys /\
    removeManyFromCache this (ArgArray items) s =
    (Returned tt,
     Store_dispatch s
       (new_EntityAction (entityName this) REMOVE_MANY (VArr keys))).

(** ** The demo application's metadata *)

Module EntityMetadata.

(** [selectId] of [src/client/app/store/entity-metadata.ts]: it returns
    [entity.id]. *)
Definition selectId : IdSelector := fun entity => get_id entity.

End EntityMetadata.

(** ** Notions used to state further properties *)

(** The operation each method hands to [dispatch]. *)
Definition op_of (c : Command) : EntityOp :=
  match c with
  | Add _ => SAVE_ADD
  | Delete _ => SAVE_DELETE
  | GetAll => QUERY_ALL
  | GetByKey _ => QUERY_BY_KEY
  | GetWithQuery _ => QUERY_MANY
  | Update _ => SAVE_UPDATE
  | AddAllToCache _ => ADD_ALL
  | AddOneToCache _ => ADD_ONE
  | AddManyToCache _ => ADD_MANY
  | ClearCache => REMOVE_ALL
  | RemoveOneFromCache _ => REMOVE_ONE
  | RemoveManyFromCache _ => REMOVE_MANY
  | UpdateOneInCache _ => UPDATE_ONE
  | UpdateManyInCache _ => UPDATE_MANY
  | SetFilter _ => SET_FILTER
  end.

(** The name of the method a call invokes. *)
Definition method_name (c : Command) : string :=
  match c with
  | Add _ => "add"
  | Delete _ => "delete"
  | GetAll => "getAll"
  | GetByKey _ => "getByKey"
  | GetWithQuery _ => "getWithQuery"
  | Update _ => "update"
  | AddAllToCache _ => "addAllToCache"
  | AddOneToCache _ => "addOneToCache"
  | AddManyToCache _ => "addManyToCache"
  | ClearCache => "clearCache"
  | RemoveOneFromCache _ => "removeOneFromCache"
  | RemoveManyFromCache _ => "removeManyFromCache"
  | UpdateOneInCache _ => "updateOneInCache"
  | UpdateManyInCache _ => "updateManyInCache"
  | SetFilter _ => "setFilter"
  end.

(** The operations that report the outcome of a persistence call. *)
Definition isResultOp (op : EntityOp) : bool :=
  match op with
  | QUERY_ALL_SUCCESS | QUERY_ALL_ERROR
  | QUERY_MANY_SUCCESS | QUERY_MANY_ERROR
  | QUERY_BY_KEY_SUCCESS | QUERY_BY_KEY_ERROR
  | SAVE_ADD_SUCCESS | SAVE_ADD_ERROR
  | SAVE_DELETE_SUCCESS | SAVE_DELETE_ERROR
  | SAVE_UPDATE_SUCCESS | SAVE_UPDATE_ERROR => true
  | _ => false
  end.

(** The argument of the methods whose body is a bare [dispatch]: the
    value they hand over as payload ([undefined] where the method takes
    no argument); [None] for the methods that go through [getKey] or
    [toUpdate]. *)
Definition passed_through (c : Command) : option Value :=
  match c with
  | Add entity | AddOneToCache entity => Some entity
  | AddAllToCache entities | AddManyToCache entities => Some entities
  | GetByKey key => Some key
  | GetWithQuery queryParams => Some queryParams
  | SetFilter pattern => Some pattern
  | GetAll | ClearCache => Some VUndefined
  | Delete _ | Update _ | RemoveOneFromCache _ | RemoveManyFromCache _
  | UpdateOneInCache _ | UpdateManyInCache _ => None
  end.

(** The [changes] field of an [Update<T>] record. *)
Definition Update_changes (update : Value) : option Value :=
  match update with
  | VObj fields => own fields "changes"
  | _ => None
  end.

(** The [id] field of an [Update<T>] record. *)
Definition Update_id (update : Value) : option Value :=
  match update with
  | VObj fields => own fields "id"
  | _ => None
  end.

(** Calls made one after the other by a caller: an exception leaves the
    remaining calls unmade. *)
Fixpoint invokeAll (this : EntityDispatcher) (cmds : list Command) : Cmd unit :=
  match cmds with
  | [] => mret tt
  | c :: rest => invoke this c ≫= fun _ => invokeAll this rest
  end.

(** The actions a call hands to a store that has seen none, and whether
    the call throws there. *)
Definition emitted (this : EntityDispatcher) (c : Command) : list EntityAction :=
  dispatched (snd (invoke this c idle_store)).

Definition throws (this : EntityDispatcher) (c : Command) : bool :=
  match fst (invoke this c idle_store) with
  | Threw _ => true
  | Returned _ => false
  end.

(** ** Basic facts about method bodies *)

Lemma bind_eval {A B : Type} (o : Outcome A) (k : A -> Cmd B) (s : Store) :
  (eval o ≫= k) s =
  match o with
  | Returned a => k a s
  | Threw e => (Threw e, s)
  end.
Proof. destruct o; reflexivity. Qed.

Lemma dispatch_eq this op payload s :
  dispatch this op payload s =
  (Returned tt,
   Store_dispatch s (new_EntityAction (entityName this) op payload)).
Proof. reflexivity. Qed.

(** Every call either dispatches nothing or exactly one action, and which
    of the two (and which action) does not depend on the store. *)
Lemma invoke_uniform (this : EntityDispatcher) (c : Command) :
  exists (o : Outcome unit) (acts : list EntityAction),
    (List.length acts <= 1)%nat /\
    forall s, invoke this c s = (o, foldl Store_dispatch s acts).
Proof.
  assert (one : forall op payload,
    exists (o : Outcome unit) (acts : list EntityAction),
      (List.length acts <= 1)%nat /\
      forall s, dispatch this op payload s = (o, foldl Store_dispatch s acts)).
  { intros op payload. eexists (Returned tt), [_]. split; [simpl; lia|].
    intros s. reflexivity. }
  assert (via : forall (o : Outcome Value) op,
    exists (r : Outcome unit) (acts : list EntityAction),
      (List.length acts <= 1)%nat /\
      forall s, (eval o ≫= dispatch this op) s = (r, foldl Store_dispatch s acts)).
  { intros [v|e] op.
    - destruct (one op v) as (r & acts & Hl & H). exists r, acts. split; [done|].
      intros s. rewrite bind_eval. apply H.
    - exists (Threw e), []. split; [simpl; lia|]. intros s. reflexivity. }
  assert (via_list : forall (o : Outcome (list Value)) op,
    exists (r : Outcome unit) (acts : list EntityAction),
      (List.length acts <= 1)%nat /\
      forall s, (eval o ≫= fun l => dispatch this op (VArr l)) s
                = (r, foldl Store_dispatch s acts)).
  { intros [v|e] op.
    - destruct (one op (VArr v)) as (r & acts & Hl & H). exists r, acts.
      split; [done|]. intros s. rewrite bind_eval. apply H.
    - exists (Threw e), []. split; [simpl; lia|]. intros s. reflexivity. }
  destruct c as [e|a| |k|q|e|es|e|es| |a|args|e|ents|p]; simpl;
    try apply one; try apply via.
  - unfold removeManyFromCache.
    destruct (Js.not args || (Js.length args =? 0)%nat).
    + exists (Returned tt), []. split; [simpl; lia|]. reflexivity.
    + apply via_list.
  - unfold updateManyInCache.
    destruct (Js.not ents || (Js.length ents =? 0)%nat).
    + exists (Returned tt), []. split; [simpl; lia|]. reflexivity.
    + apply via_list.
Qed.

(** [Js.map] returns exactly when the callback returns on every element. *)
Lemma map_returned (f : Value -> Outcome Value) (items results : list Value) :
  Js.map f items = Returned results <->
  Forall2 (fun x y => f x = Returned y) items results.
Proof.
  revert results. induction items as [|x items IH]; intros results; simpl.
  - split.
    + intros H. injection H as <-. constructor.
    + intros H. inversion H. reflexivity.
  - split.
    + intros H. destruct (f x) as [y|e] eqn:Hx; simpl in H; [|discriminate].
      destruct (Js.map f items) as [ys|e] eqn:Hm; simpl in H; [|discriminate].
      injection H as <-. constructor; [exact Hx|]. apply IH. reflexivity.
    + intros H. inversion H as [|? y ? ys Hx Hrest]; subst.
      rewrite Hx. simpl. apply IH in Hrest. rewrite Hrest. reflexivity.
Qed.

(** When [Js.map] throws, the exception is the callback's, on an element. *)
Lemma map_threw (f : Value -> Outcome Value) (items : list Value) (err : Error) :
  Js.map f items = Threw err -> exists x, x ∈ items /\ f x = Threw err.
Proof.
  induction items as [|x items IH]; simpl; [discriminate|].
  destruct (f x) as [y|e] eqn:Hx; simpl.
  - destruct (Js.map f items) as [ys|e] eqn:Hm; simpl; [discriminate|].
    intros H. injection H as ->. destruct IH as (x' & Hin & Hx'); [reflexivity|].
    exists x'. split; [by apply list_elem_of_further|exact Hx'].
  - intros H. injection H as ->. exists x. split; [apply list_elem_of_here|exact Hx].
Qed.

Lemma getKey_object this arg :
  typeof arg = "object" -> getKey this arg = selectId this arg.
Proof. intros H. unfold getKey. rewrite bool_decide_eq_true_2; done. Qed.

Lemma getKey_primitive this arg :
  typeof arg <> "object" -> getKey this arg = Returned arg.
Proof. intros H. unfold getKey. rewrite bool_decide_eq_false_2; done. Qed.

Lemma isKey_typeof arg : isKey arg = true -> typeof arg <> "object".
Proof. destruct arg; simpl; done. Qed.

Lemma isEntity_typeof arg : isEntity arg = true -> typeof arg = "object".
Proof. destruct arg; simpl; done. Qed.

(** On an array without objects, element-wise [getKey] changes nothing. *)
Lemma map_getKey_primitives this items :
  Forall (fun a => typeof a <> "object") items ->
  Js.map (getKey this) items = Returned items.
Proof.
  intros H. apply map_returned. induction H; constructor; [|assumption].
  by apply getKey_primitive.
Qed.

Lemma removeManyFromCache_object_first this s first rest :
  typeof first = "object" ->
  removeManyFromCache this (ArgArray (first :: rest)) s =
  match Js.map (getKey this) (first :: rest) with
  | Returned keys =>
      (Returned tt,
       Store_dispatch s
         (new_EntityAction (entityName this) REMOVE_MANY (VArr keys)))
  | Threw err => (Threw err, s)
  end.
Proof.
  intros H. unfold removeManyFromCache.
  change (Js.not (ArgArray (first :: rest)) ||
          (Js.length (ArgArray (first :: rest)) =? 0)%nat) with false.
  change (Js.index (ArgArray (first :: rest)) 0) with first.
  cbv iota. rewrite bind_eval. cbn [Js.elements].
  rewrite bool_decide_eq_true_2 by done. reflexivity.
Qed.

Lemma removeManyFromCache_primitive_first this s first rest :
  typeof first <> "object" ->
  removeManyFromCache this (ArgArray (first :: rest)) s =
  (Returned tt,
   Store_dispatch s
     (new_EntityAction (entityName this) REMOVE_MANY (VArr (first :: rest)))).
Proof.
  intros H. unfold removeManyFromCache.
  change (Js.not (ArgArray (first :: rest)) ||
          (Js.length (ArgArray (first :: rest)) =? 0)%nat) with false.
  change (Js.index (ArgArray (first :: rest)) 0) with first.
  cbv iota. rewrite bind_eval. cbn [Js.elements].
  rewrite bool_decide_eq_false_2 by done. reflexivity.
Qed.

(** ** The model on a few calls *)

Example delete_entity :
  delete hero_dispatcher (hero 1 "A") idle_store =
  (Returned tt,
   Store_dispatch idle_store (new_EntityAction "Hero" SAVE_DELETE (VNum 1))).
Proof. reflexivity. Qed.

Example delete_key :
  delete hero_dispatcher (VStr "k") idle_store =
  (Returned tt,
   Store_dispatch idle_store (new_EntityAction "Hero" SAVE_DELETE (VStr "k"))).
Proof. reflexivity. Qed.

(** [typeof null] is ["object"], so [delete(null)] reaches [selectId]. *)
Example delete_null :
  delete hero_dispatcher VNull idle_store =
  (Threw (TypeError "Cannot read property 'id' of null"), idle_store).
Proof. reflexivity. Qed.

Example getAll_no_payload :
  dispatched (snd (getAll villain_dispatcher idle_store)) =
  [new_EntityAction "Villain" QUERY_ALL VUndefined].
Proof. reflexivity. Qed.

Example two_calls_in_order :
  dispatched (snd ((add hero_dispatcher (hero 1 "A") ≫=
                    fun _ => setFilter hero_dispatcher (VStr "a")) idle_store)) =
  [new_EntityAction "Hero" SAVE_ADD (hero 1 "A");
   new_EntityAction "Hero" SET_FILTER (VStr "a")].
Proof. reflexivity. Qed.

Example removeMany_stops_at_first_throw :
  removeManyFromCache hero_dispatcher (ArgArray [hero 1 "A"; VNull; hero 3 "C"])
    idle_store =
  (Threw (TypeError "Cannot read property 'id' of null"), idle_store).
Proof. reflexivity. Qed.

(** ** Properties of the dispatcher *)

(** *** The guards of the bulk methods *)

(** C9: [updateManyInCache] called with an absent ([undefined] or [null])
    or empty array returns without dispatching: the store, and so the
    list of dispatched actions, is left as it was, and no [UPDATE_MANY]
    action is enqueued. *)
Theorem updateManyInCache_absent_or_empty (this : EntityDispatcher) (s : Store) :
  updateManyInCache this ArgUndefined s = (Returned tt, s) /\
  updateManyInCache this ArgNull s = (Returned tt, s) /\
  updateManyInCache this (ArgArray []) s = (Returned tt, s) /\
  forall entities : ArrayArg,
    Js.not entities || (Js.length entities =? 0)%nat = true ->
    dispatched (snd (updateManyInCache this entities s)) = dispatched s.
Proof.
  repeat split.
  intros entities H. unfold updateManyInCache. rewrite H. reflexivity.
Qed.

Lemma updateManyInCache_absent_or_empty_witness :
  Js.not (ArgArray []) || (Js.length (ArgArray []) =? 0)%nat = true /\
  dispatched (snd (updateManyInCache hero_dispatcher (ArgArray []) idle_store))
  = dispatched idle_store.
Proof.
  split; [reflexivity|].
  apply (updateManyInCache_absent_or_empty hero_dispatcher idle_store).
  reflexivity.
Defined.

(** *** One call, at most one action *)



(** *** The store is never consulted *)

(** C7: no command reads the cache before dispatching.  Two runs of the
    same call on the same dispatcher, started from arbitrary and possibly
    different stores (states, reducers and histories), end the same way
    and hand the same actions, in the same order, to their stores. *)
Theorem invoke_independent_of_store (this : EntityDispatcher) (c : Command)
    (s1 s2 : Store) :
  fst (invoke this c s1) = fst (invoke this c s2) /\
  exists acts : list EntityAction,
    snd (invoke this c s1) = foldl Store_dispatch s1 acts /\
    snd (invoke this c s2) = foldl Store_dispatch s2 acts /\
    dispatched (snd (invoke this c s1)) = dispatched s1 ++ acts /\
    dispatched (snd (invoke this c s2)) = dispatched s2 ++ acts.
Proof.
  destruct (invoke_uniform this c) as (o & acts & Hlen & H).
  rewrite (H s1), (H s2). simpl. split; [reflexivity|].
  exists acts. repeat split.
  - destruct acts as [|a [|b acts]]; simpl in *;
      [symmetry; apply app_nil_r|reflexivity|lia].
  - destruct acts as [|a [|b acts]]; simpl in *;
      [symmetry; apply app_nil_r|reflexivity|lia].
Qed.

(** *** The default key selector *)

(** C8: when no key selector is configured, the dispatcher's selector is
    [entity => entity.id], both for [new EntityDispatcher(name, store)] and
    for [createEntityDispatcher(name, store)]: on an entity object it
    returns the value of its [id] field, and that is the key [getKey]
    resolves the entity to. *)
Theorem default_selectId_is_id (name : string) (e : Value)
    (fields : list (string * Value)) :
  selectId (EntityDispatcher_new name None) e = get_id e /\
  selectId (createEntityDispatcher name None) e = get_id e /\
  selectId (EntityDispatcher_new name None) (VObj fields)
    = Returned (default VUndefined (own fields "id")) /\
  selectId (createEntityDispatcher name None) (VObj fields)
    = Returned (default VUndefined (own fields "id")) /\
  getKey (EntityDispatcher_new name None) (VObj fields)
    = Returned (default VUndefined (own fields "id")) /\
  getKey (createEntityDispatcher name None) (VObj fields)
    = Returned (default VUndefined (own fields "id")).
Proof. repeat split. Qed.

(** *** Partial entities become [Update<T>] records *)

Lemma update_eq this s entity :
  update this entity s =
  match selectId this entity with
  | Returned k =>
      (Returned tt,
       Store_dispatch s
         (new_EntityAction (entityName this) SAVE_UPDATE (UpdateT k entity)))
  | Threw err => (Threw err, s)
  end.
Proof.
  unfold update. rewrite bind_eval. unfold toUpdate.
  destruct (selectId this entity); reflexivity.
Qed.

Lemma updateOneInCache_eq this s entity :
  updateOneInCache this entity s =
  match selectId this entity with
  | Returned k =>
      (Returned tt,
       Store_dispatch s
         (new_EntityAction (entityName this) UPDATE_ONE (UpdateT k entity)))
  | Threw err => (Threw err, s)
  end.
Proof.
  unfold updateOneInCache. rewrite bind_eval. unfold toUpdate.
  destruct (selectId this entity); reflexivity.
Qed.

Lemma updateManyInCache_nonempty this s first rest :
  updateManyInCache this (ArgArray (first :: rest)) s =
  match Js.map (toUpdate this) (first :: rest) with
  | Returned updates =>
      (Returned tt,
       Store_dispatch s
         (new_EntityAction (entityName this) UPDATE_MANY (VArr updates)))
  | Threw err => (Threw err, s)
  end.
Proof.
  unfold updateManyInCache.
  change (Js.not (ArgArray (first :: rest)) ||
          (Js.length (ArgArray (first :: rest)) =? 0)%nat) with false.
  cbv iota. rewrite bind_eval. reflexivity.
Qed.

Lemma toUpdate_returned this entity u :
  toUpdate this entity = Returned u <->
  exists k, selectId this entity = Returned k /\ u = UpdateT k entity.
Proof.
  unfold toUpdate. destruct (selectId this entity) as [k|e]; simpl.
  - split.
    + intros H. injection H as <-. eauto.
    + intros (k' & Hk & ->). congruence.
  - split; [discriminate|]. intros (k' & Hk & _). discriminate.
Qed.

Lemma toUpdate_threw this entity err :
  toUpdate this entity = Threw err <-> selectId this entity = Threw err.
Proof.
  unfold toUpdate. destruct (selectId this entity) as [k|e]; simpl.
  - split; discriminate.
  - reflexivity.
Qed.

(** C5: for a partial entity [e] on which the configured [selectId]
    returns [k], [update] and [updateOneInCache] dispatch the record
    [{ id: k, changes: e }] as payload, with [e] itself as [changes]; and
    [updateManyInCache] dispatches the array of these records, one per
    element and in the order of the argument. *)
Theorem update_payload_is_Update (this : EntityDispatcher) (s : Store)
    (e : Value) (rest : list Value) (k : Value) (ks : list Value)
    (He : selectId this e = Returned k)
    (Hrest : Forall2 (fun e k => selectId this e = Returned k) rest ks) :
  toUpdate this e = Returned (UpdateT k e) /\
  update this e s =
    (Returned tt,
     Store_dispatch s
       (new_EntityAction (entityName this) SAVE_UPDATE (UpdateT k e))) /\
  updateOneInCache this e s =
    (Returned tt,
     Store_dispatch s
       (new_EntityAction (entityName this) UPDATE_ONE (UpdateT k e))) /\
  updateManyInCache this (ArgArray (e :: rest)) s =
    (Returned tt,
     Store_dispatch s
       (new_EntityAction (entityName this) UPDATE_MANY
          (VArr (zip_with UpdateT (k :: ks) (e :: rest))))).
Proof.
  repeat split.
  - apply toUpdate_returned. eauto.
  - rewrite update_eq, He. reflexivity.
  - rewrite updateOneInCache_eq, He. reflexivity.
  - rewrite updateManyInCache_nonempty.
    assert (Js.map (toUpdate this) (e :: rest)
            = Returned (zip_with UpdateT (k :: ks) (e :: rest))) as ->;
      [|reflexivity].
    apply map_returned. simpl. constructor.
    + apply toUpdate_returned. eauto.
    + clear He. induction Hrest; simpl; constructor; [|assumption].
      apply toUpdate_returned. eauto.
Qed.

Lemma update_payload_is_Update_witness :
  update hero_dispatcher (hero 1 "B") idle_store =
    (Returned tt,
     Store_dispatch idle_store
       (new_EntityAction "Hero" SAVE_UPDATE (UpdateT (VNum 1) (hero 1 "B")))) /\
  updateManyInCache villain_dispatcher
    (ArgArray [villain "k1" "X"; VObj [("key", VStr "k2")]]) idle_store =
    (Returned tt,
     Store_dispatch idle_store
       (new_EntityAction "Villain" UPDATE_MANY
          (VArr [UpdateT (VStr "k1") (villain "k1" "X");
                 UpdateT (VStr "k2") (VObj [("key", VStr "k2")])]))).
Proof.
  split.
  - apply (update_payload_is_Update hero_dispatcher idle_store
             (hero 1 "B") [] (VNum 1) []); [reflexivity|constructor].
  - apply (update_payload_is_Update villain_dispatcher idle_store
             (villain "k1" "X") [VObj [("key", VStr "k2")]]
             (VStr "k1") [VStr "k2"]); [reflexivity|].
    constructor; [reflexivity|constructor].
Defined.

(** *** Malformed partial entities *)

(** C1 as worded fails: [update({ name: 'B' })] on a dispatcher with the
    default key selector.  The key field is missing, [selectId] yields
    [undefined], and the command neither raises nor holds the action
    back. *)
Lemma update_missing_key_not_raised :
  selectId hero_dispatcher (VObj [("name", VStr "B")]) = Returned VUndefined /\
  ~ raises_synchronously
      (update hero_dispatcher (VObj [("name", VStr "B")])) idle_store /\
  update hero_dispatcher (VObj [("name", VStr "B")]) idle_store =
    (Returned tt,
     Store_dispatch idle_store
       (new_EntityAction "Hero" SAVE_UPDATE
          (UpdateT VUndefined (VObj [("name", VStr "B")])))).
Proof.
  split; [reflexivity|]. split; [|reflexivity].
  intros [err H]. discriminate H.
Qed.

(** C1 (amended): the update commands do not validate their argument.
    They raise synchronously exactly when [selectId] itself throws on the
    argument (or on an element of the array), with that same error and
    without dispatching; whenever [selectId] returns, the action is
    dispatched with the returned value as [id].  In particular, with the
    default selector an object without an [id] field is dispatched with
    [id: undefined]. *)
Theorem update_raises_iff_selectId_throws (this : EntityDispatcher) (s : Store) :
  (forall e,
     update this e s =
     match selectId this e with
     | Returned k =>
         (Returned tt,
          Store_dispatch s
            (new_EntityAction (entityName this) SAVE_UPDATE (UpdateT k e)))
     | Threw err => (Threw err, s)
     end) /\
  (forall e,
     updateOneInCache this e s =
     match selectId this e with
     | Returned k =>
         (Returned tt,
          Store_dispatch s
            (new_EntityAction (entityName this) UPDATE_ONE (UpdateT k e)))
     | Threw err => (Threw err, s)
     end) /\
  (forall first rest,
     match updateManyInCache this (ArgArray (first :: rest)) s with
     | (Returned _, s') =>
         exists ks,
           Forall2 (fun e k => selectId this e = Returned k) (first :: rest) ks /\
           s' = Store_dispatch s
                  (new_EntityAction (entityName this) UPDATE_MANY
                     (VArr (zip_with UpdateT ks (first :: rest))))
     | (Threw err, s') =>
         s' = s /\ exists e, e ∈ first :: rest /\ selectId this e = Threw err
     end) /\
  (forall name fields,
     own fields "id" = None ->
     update (EntityDispatcher_new name None) (VObj fields) s =
     (Returned tt,
      Store_dispatch s
        (new_EntityAction name SAVE_UPDATE
           (UpdateT VUndefined (VObj fields))))).
Proof.
  split; [intros e; apply update_eq|].
  split; [intros e; apply updateOneInCache_eq|].
  split.
  - intros first rest. rewrite updateManyInCache_nonempty.
    destruct (Js.map (toUpdate this) (first :: rest)) as [us|err] eqn:Hm.
    + apply map_returned in Hm.
      assert (exists ks,
                Forall2 (fun e k => selectId this e = Returned k) (first :: rest) ks
                /\ us = zip_with UpdateT ks (first :: rest)) as (ks & Hks & ->).
      { clear -Hm. induction Hm as [|x u xs us Hx _ IH].
        - exists []. split; [constructor|reflexivity].
        - apply toUpdate_returned in Hx as (k & Hk & ->).
          destruct IH as (ks & Hks & ->).
          exists (k :: ks). split; [by constructor|reflexivity]. }
      eauto.
    + split; [reflexivity|].
      apply map_threw in Hm as (x & Hin & Hx).
      exists x. split; [exact Hin|]. by apply toUpdate_threw.
  - intros name fields Hid. rewrite update_eq. simpl. rewrite Hid. reflexivity.
Qed.

Lemma update_raises_iff_selectId_throws_witness :
  own [("name", VStr "B")] "id" = None /\
  update (EntityDispatcher_new "Hero" None) (VObj [("name", VStr "B")]) idle_store =
    (Returned tt,
     Store_dispatch idle_store
       (new_EntityAction "Hero" SAVE_UPDATE
          (UpdateT VUndefined (VObj [("name", VStr "B")])))).
Proof.
  split; [reflexivity|].
  apply (update_raises_iff_selectId_throws hero_dispatcher idle_store).
  reflexivity.
Defined.

(** *** Keys and entities in the remove commands *)

(** C10: in [removeManyFromCache] the first element decides for the whole
    array.  When it is an object, every element goes through [getKey]
    (objects through [selectId], primitives unchanged), so a mixed array
    that starts with an entity is fully resolved; when it is a primitive,
    the array is dispatched as it is, whatever its later elements are, so
    entity objects in later positions reach the [REMOVE_MANY] payload
    unconverted. *)
Theorem removeManyFromCache_first_element_decides (this : EntityDispatcher)
    (s : Store) (first : Value) (rest : list Value) :
  (typeof first = "object" ->
   removeManyFromCache this (ArgArray (first :: rest)) s =
   match Js.map (getKey this) (first :: rest) with
   | Returned keys =>
       (Returned tt,
        Store_dispatch s
          (new_EntityAction (entityName this) REMOVE_MANY (VArr keys)))
   | Threw err => (Threw err, s)
   end) /\
  (typeof first <> "object" ->
   removeManyFromCache this (ArgArray (first :: rest)) s =
   (Returned tt,
    Store_dispatch s
      (new_EntityAction (entityName this) REMOVE_MANY (VArr (first :: rest))))) /\
  (forall arg, typeof arg = "object" -> getKey this arg = selectId this arg) /\
  (forall arg, typeof arg <> "object" -> getKey this arg = Returned arg).
Proof.
  split; [apply removeManyFromCache_object_first|].
  split; [apply removeManyFromCache_primitive_first|].
  split; [apply getKey_object|apply getKey_primitive].
Qed.

Lemma removeManyFromCache_first_element_decides_witness :
  (typeof (hero 1 "A") = "object" /\
   removeManyFromCache hero_dispatcher (ArgArray [hero 1 "A"; VNum 2]) idle_store =
   (Returned tt,
    Store_dispatch idle_store
      (new_EntityAction "Hero" REMOVE_MANY (VArr [VNum 1; VNum 2])))) /\
  (typeof (VNum 1) <> "object" /\
   removeManyFromCache hero_dispatcher (ArgArray [VNum 1; hero 2 "B"]) idle_store =
   (Returned tt,
    Store_dispatch idle_store
      (new_EntityAction "Hero" REMOVE_MANY (VArr [VNum 1; hero 2 "B"])))).
Proof.
  split.
  - split; [reflexivity|].
    destruct (removeManyFromCache_first_element_decides hero_dispatcher
                idle_store (hero 1 "A") [VNum 2]) as [H _].
    rewrite H; reflexivity.
  - assert (Hn : typeof (VNum 1) <> "object") by discriminate.
    split; [exact Hn|].
    destruct (removeManyFromCache_first_element_decides hero_dispatcher
                idle_store (VNum 1) [hero 2 "B"]) as (_ & H & _).
    exact (H Hn).
Defined.

(** C3 as worded fails: [removeManyFromCache([1, {id: 2, name: 'B'}])].
    The first element is a key, the array is forwarded as it is, and the
    payload holds an entity. *)
Lemma payload_not_all_keys :
  ~ dispatches_keys hero_dispatcher [VNum 1; hero 2 "B"] idle_store.
Proof.
  intros (keys & Hkeys & H).
  apply (f_equal (fun r => dispatched (snd r))) in H. simpl in H.
  injection H as <-. discriminate Hkeys.
Qed.

(** C3 (amended): [removeManyFromCache] with an absent or empty array
    dispatches nothing.  On a non-empty array it looks at the type of the
    first element only: if that is not an object the array itself becomes
    the payload of the one [REMOVE_MANY] action; if it is, every element
    is passed through [getKey] and the results become the payload of the
    one [REMOVE_MANY] action, unless [selectId] throws, in which case
    nothing is dispatched.  The payload is an array of keys when the
    argument is an array of raw keys, or an array of entities each of
    which [selectId] maps to a key. *)
Theorem removeManyFromCache_guard_and_payload (this : EntityDispatcher)
    (s : Store) :
  removeManyFromCache this ArgUndefined s = (Returned tt, s) /\
  removeManyFromCache this ArgNull s = (Returned tt, s) /\
  removeManyFromCache this (ArgArray []) s = (Returned tt, s) /\
  (forall first rest,
     typeof first <> "object" ->
     removeManyFromCache this (ArgArray (first :: rest)) s =
     (Returned tt,
      Store_dispatch s
        (new_EntityAction (entityName this) REMOVE_MANY (VArr (first :: rest))))) /\
  (forall first rest keys,
     typeof first = "object" ->
     Js.map (getKey this) (first :: rest) = Returned keys ->
     removeManyFromCache this (ArgArray (first :: rest)) s =
     (Returned tt,
      Store_dispatch s
        (new_EntityAction (entityName this) REMOVE_MANY (VArr keys)))) /\
  (forall first rest err,
     removeManyFromCache this (ArgArray (first :: rest)) s = (Threw err, s) <->
     typeof first = "object" /\
     Js.map (getKey this) (first :: rest) = Threw err) /\
  (forall first rest,
     forallb isKey (first :: rest) = true ->
     removeManyFromCache this (ArgArray (first :: rest)) s =
     (Returned tt,
      Store_dispatch s
        (new_EntityAction (entityName this) REMOVE_MANY (VArr (first :: rest))))) /\
  (forall first rest keys,
     Forall2 (fun e k => isEntity e = true /\ selectId this e = Returned k /\
                         isKey k = true) (first :: rest) keys ->
     forallb isKey keys = true /\
     removeManyFromCache this (ArgArray (first :: rest)) s =
     (Returned tt,
      Store_dispatch s
        (new_EntityAction (entityName this) REMOVE_MANY (VArr keys)))).
Proof.
  split; [reflexivity|]. split; [reflexivity|]. split; [reflexivity|].
  split; [apply removeManyFromCache_primitive_first|].
  split; [|split; [|split]].
  - intros first rest keys Hobj Hm.
    rewrite removeManyFromCache_object_first by done. rewrite Hm. reflexivity.
  - intros first rest err. split.
    + intros H. destruct (decide (typeof first = "object")) as [Hobj|Hobj].
      * split; [done|]. rewrite removeManyFromCache_object_first in H by done.
        destruct (Js.map (getKey this) (first :: rest)); congruence.
      * rewrite removeManyFromCache_primitive_first in H by done. discriminate.
    + intros [Hobj Hm]. rewrite removeManyFromCache_object_first by done.
      rewrite Hm. reflexivity.
  - intros first rest Hk. apply removeManyFromCache_primitive_first.
    apply isKey_typeof. simpl in Hk. by apply andb_prop in Hk as [? _].
  - intros first rest keys H.
    assert (Hobj : typeof first = "object").
    { inversion H as [|? ? ? ? (He & _) _]; subst. by apply isEntity_typeof. }
    rewrite removeManyFromCache_object_first by done.
    assert (Js.map (getKey this) (first :: rest) = Returned keys) as ->.
    { apply map_returned. eapply Forall2_impl; [exact H|].
      intros e k (He & Hk & _). simpl. rewrite getKey_object; [done|].
      by apply isEntity_typeof. }
    split; [|reflexivity].
    clear Hobj. induction H as [|? ? ? ? (_ & _ & Hk) _ IH]; simpl; [done|].
    rewrite Hk. exact IH.
Qed.

Lemma removeManyFromCache_guard_and_payload_witness :
  (forallb isKey [VNum 1; VStr "b"] = true /\
   removeManyFromCache hero_dispatcher (ArgArray [VNum 1; VStr "b"]) idle_store =
   (Returned tt,
    Store_dispatch idle_store
      (new_EntityAction "Hero" REMOVE_MANY (VArr [VNum 1; VStr "b"])))) /\
  (forallb isKey [VStr "k1"; VStr "k2"] = true /\
   removeManyFromCache villain_dispatcher
     (ArgArray [villain "k1" "X"; villain "k2" "Y"]) idle_store =
   (Returned tt,
    Store_dispatch idle_store
      (new_EntityAction "Villain" REMOVE_MANY (VArr [VStr "k1"; VStr "k2"])))).
Proof.
  split.
  - split; [reflexivity|].
    destruct (removeManyFromCache_guard_and_payload hero_dispatcher idle_store)
      as (_ & _ & _ & _ & _ & _ & H & _).
    apply H. reflexivity.
  - destruct (removeManyFromCache_guard_and_payload villain_dispatcher
                idle_store) as (_ & _ & _ & _ & _ & _ & _ & H).
    apply H. repeat constructor.
Defined.

(** C4 as worded fails: [removeManyFromCache(['a', {key: 'b', name: 'Y'}])].
    The second element is an entity whose key is ['b'], yet it is
    dispatched as it is. *)
Lemma later_entity_not_resolved :
  getKey villain_dispatcher (villain "b" "Y") = Returned (VStr "b") /\
  ~ resolves_every_element villain_dispatcher [VStr "a"; villain "b" "Y"]
      idle_store.
Proof.
  split; [reflexivity|].
  intros (keys & Hkeys & H).
  apply (f_equal (fun r => dispatched (snd r))) in H. simpl in H.
  injection H as <-.
  inversion Hkeys as [|? ? ? ? _ Hrest]; subst.
  inversion Hrest as [|? ? ? ? Hb _]; subst.
  discriminate Hb.
Qed.

(** C4 (amended): [delete] and [removeOneFromCache] dispatch [getKey] of
    their argument: the key [selectId] returns when the argument is an
    entity object, the argument itself when it is a raw key.
    [removeManyFromCache] applies the same [getKey] to every element when
    the first element is an object; when the first element is a raw key
    (or any other value that is not an object) it forwards the array
    unchanged, whatever its later elements are and without calling
    [getKey], which is the element-wise [getKey] provided no element is an
    object. *)
Theorem remove_commands_resolve_keys (this : EntityDispatcher) (s : Store) :
  (forall arg k,
     getKey this arg = Returned k ->
     delete this arg s =
       (Returned tt,
        Store_dispatch s (new_EntityAction (entityName this) SAVE_DELETE k)) /\
     removeOneFromCache this arg s =
       (Returned tt,
        Store_dispatch s (new_EntityAction (entityName this) REMOVE_ONE k))) /\
  (forall arg, isEntity arg = true -> getKey this arg = selectId this arg) /\
  (forall arg, isKey arg = true -> getKey this arg = Returned arg) /\
  (forall first rest keys,
     typeof first = "object" \/
       Forall (fun a => typeof a <> "object") (first :: rest) ->
     Js.map (getKey this) (first :: rest) = Returned keys ->
     removeManyFromCache this (ArgArray (first :: rest)) s =
       (Returned tt,
        Store_dispatch s
          (new_EntityAction (entityName this) REMOVE_MANY (VArr keys)))) /\
  (forall first rest,
     typeof first <> "object" ->
     removeManyFromCache this (ArgArray (first :: rest)) s =
       (Returned tt,
        Store_dispatch s
          (new_EntityAction (entityName this) REMOVE_MANY
             (VArr (first :: rest))))) /\
  (forall first rest,
     typeof first = "object" ->
     removeManyFromCache this (ArgArray (first :: rest)) s =
       match Js.map (getKey this) (first :: rest) with
       | Returned keys =>
           (Returned tt,
            Store_dispatch s
              (new_EntityAction (entityName this) REMOVE_MANY (VArr keys)))
       | Threw err => (Threw err, s)
       end).
Proof.
  split; [|split; [|split; [|split; [|split]]]].
  - intros arg k Hk. unfold delete, removeOneFromCache.
    rewrite !bind_eval, Hk. split; reflexivity.
  - intros arg H. apply getKey_object. by apply isEntity_typeof.
  - intros arg H. apply getKey_primitive. by apply isKey_typeof.
  - intros first rest keys [Hobj|Hprim] Hm.
    + rewrite removeManyFromCache_object_first by done. rewrite Hm. reflexivity.
    + rewrite (map_getKey_primitives this _ Hprim) in Hm. injection Hm as <-.
      apply removeManyFromCache_primitive_first. by inversion Hprim.
  - apply removeManyFromCache_primitive_first.
  - apply removeManyFromCache_object_first.
Qed.

Lemma remove_commands_resolve_keys_witness :
  (getKey villain_dispatcher (villain "k1" "X") = Returned (VStr "k1") /\
   delete villain_dispatcher (villain "k1" "X") idle_store =
     (Returned tt,
      Store_dispatch idle_store
        (new_EntityAction "Villain" SAVE_DELETE (VStr "k1"))) /\
   removeOneFromCache villain_dispatcher (villain "k1" "X") idle_store =
     (Returned tt,
      Store_dispatch idle_store
        (new_EntityAction "Villain" REMOVE_ONE (VStr "k1")))) /\
  (isKey (VNum 7) = true /\
   getKey hero_dispatcher (VNum 7) = Returned (VNum 7)) /\
  removeManyFromCache hero_dispatcher (ArgArray [hero 1 "A"; hero 2 "B"])
    idle_store =
    (Returned tt,
     Store_dispatch idle_store
       (new_EntityAction "Hero" REMOVE_MANY (VArr [VNum 1; VNum 2]))) /\
  (typeof (VStr "a") <> "object" /\
   removeManyFromCache villain_dispatcher
     (ArgArray [VStr "a"; villain "b" "Y"]) idle_store =
     (Returned tt,
      Store_dispatch idle_store
        (new_EntityAction "Villain" REMOVE_MANY
           (VArr [VStr "a"; villain "b" "Y"])))) /\
  (typeof (hero 1 "A") = "object" /\
   removeManyFromCache hero_dispatcher (ArgArray [hero 1 "A"; VNull])
     idle_store =
     (Threw (TypeError "Cannot read property 'id' of null"), idle_store)).
Proof.
  destruct (remove_commands_resolve_keys hero_dispatcher idle_store)
    as (_ & _ & HkeyH & HmanyH & _ & HobjH).
  destruct (remove_commands_resolve_keys villain_dispatcher idle_store)
    as (HoneV & _ & _ & _ & HprimV & _).
  split; [|split; [|split; [|split]]].
  - split; [reflexivity|]. apply HoneV. reflexivity.
  - split; [reflexivity|]. apply HkeyH. reflexivity.
  - apply HmanyH; [left; reflexivity|reflexivity].
  - assert (Hn : typeof (VStr "a") <> "object") by discriminate.
    split; [exact Hn|]. exact (HprimV (VStr "a") [villain "b" "Y"] Hn).
  - split; [reflexivity|].
    rewrite (HobjH (hero 1 "A") [VNull]) by reflexivity. reflexivity.
Defined.

(** ** Properties of the live selectors *)

Lemma cached_collection_absent name initialState (cache : EntityCache) :
  cache !! name = None ->
  createCachedCollectionSelector name initialState cache =
  default createEmptyEntityCollection initialState.
Proof.
  intros H. unfold createCachedCollectionSelector. rewrite H. reflexivity.
Qed.

Lemma cached_collection_present name initialState (cache : EntityCache) c :
  cache !! name = Some c ->
  createCachedCollectionSelector name initialState cache = c.
Proof.
  intros H. unfold createCachedCollectionSelector. rewrite H. reflexivity.
Qed.

(** C6: while the cache holds no collection for an entity type, the live
    selectors emit defaults: without a supplied default state, the empty
    sequence for the entities, [false] for the loading flag and
    [undefined] for every extension field; with a supplied default state,
    the values selected from that state.  Reading substitutes the default
    only: the store the subscriber leaves behind is the store it found,
    and its cache still holds no collection for the type. *)
Theorem selectors_S_emit_defaults (name : string) (store : Store)
    (Habsent : state store !! name = None) :
  (let views := EntitySelectors_S_create name None in
   fst (subscribe (entities_S views) store) = [] /\
   fst (subscribe (ids_S views) store) = [] /\
   fst (subscribe (loading_S views) store) = false /\
   forall field, fst (subscribe (additional_S views field) store) = VUndefined) /\
  (forall supplied : EntityCollection,
     let views := EntitySelectors_S_create name (Some supplied) in
     fst (subscribe (entities_S views) store) = selectEntities supplied /\
     fst (subscribe (ids_S views) store) = ids supplied /\
     fst (subscribe (loading_S views) store) = loading supplied /\
     forall field,
       fst (subscribe (additional_S views field) store)
       = default VUndefined (additional supplied !! field)) /\
  (forall (initialState : option EntityCollection) (A : Type)
          (selector : Selector A),
     let view := live (createCachedCollectionSelector name initialState) selector in
     fst (subscribe view store)
       = selector (default createEmptyEntityCollection initialState) /\
     snd (subscribe view store) = store /\
     state (snd (subscribe view store)) !! name = None).
Proof.
  split; [|split].
  - simpl. unfold live. rewrite cached_collection_absent by done.
    repeat split.
  - intros supplied. simpl. unfold live.
    rewrite cached_collection_absent by done. repeat split.
  - intros initialState A selector. simpl. unfold live.
    rewrite cached_collection_absent by done. repeat split. exact Habsent.
Qed.

Lemma selectors_S_emit_defaults_witness :
  state idle_store !! "Hero" = None /\
  (let views := EntitySelectors_S_create "Hero" (Some defaultHeroState) in
   fst (subscribe (entities_S views) idle_store) = [hero 1 "A"] /\
   fst (subscribe (loading_S views) idle_store) = false /\
   fst (subscribe (additional_S views "foo") idle_store) = VStr "foo foo" /\
   fst (subscribe (additional_S views "bar") idle_store) = VNum 42) /\
  state (snd (subscribe
                (entities_S (EntitySelectors_S_create "Hero"
                               (Some defaultHeroState))) idle_store)) !! "Hero"
  = None.
Proof.
  assert (Habsent : state idle_store !! "Hero" = None) by reflexivity.
  destruct (selectors_S_emit_defaults "Hero" idle_store Habsent)
    as (_ & Hsupplied & Hread).
  split; [exact Habsent|]. split.
  - destruct (Hsupplied defaultHeroState) as (He & _ & Hl & Ha).
    cbv zeta. rewrite He, Hl, !Ha. repeat split.
  - apply (Hread (Some defaultHeroState) _ selectEntities).
Defined.

(** ** Further properties of the dispatcher *)

Lemma Store_dispatch_inj s a b :
  Store_dispatch s a = Store_dispatch s b -> a = b.
Proof.
  intros H. apply (f_equal dispatched) in H. simpl in H.
  apply app_inv_head in H. congruence.
Qed.

Lemma Store_dispatch_neq s a : Store_dispatch s a <> s.
Proof.
  intros H. apply (f_equal (fun st => List.length (dispatched st))) in H.
  simpl in H. rewrite length_app in H. simpl in H. lia.
Qed.

(** A call leaves the store alone or hands it one action that carries the
    dispatcher's entity name and the method's operation. *)
Lemma invoke_cases (this : EntityDispatcher) (c : Command) (s : Store) :
  snd (invoke this c s) = s \/
  exists payload,
    invoke this c s =
    (Returned tt,
     Store_dispatch s (new_EntityAction (entityName this) (op_of c) payload)).
Proof.
  assert (via : forall (o : Outcome Value) op,
    snd ((eval o ≫= dispatch this op) s) = s \/
    exists payload,
      (eval o ≫= dispatch this op) s =
      (Returned tt,
       Store_dispatch s (new_EntityAction (entityName this) op payload))).
  { intros [v|e] op; rewrite bind_eval; [right; eauto|left; reflexivity]. }
  destruct c as [e|a| |k|q|e|es|e|es| |a|args|e|ents|p]; simpl;
    try (right; eexists; reflexivity); try apply via.
  - unfold removeManyFromCache.
    destruct (Js.not args || (Js.length args =? 0)%nat); [left; reflexivity|].
    rewrite bind_eval.
    destruct (if bool_decide _ then _ else _); [right; eauto|left; reflexivity].
  - unfold updateManyInCache.
    destruct (Js.not ents || (Js.length ents =? 0)%nat); [left; reflexivity|].
    rewrite bind_eval.
    destruct (Js.map _ _); [right; eauto|left; reflexivity].
Qed.

Lemma invoke_action (this : EntityDispatcher) (c : Command) (s : Store)
    (a : EntityAction) :
  snd (invoke this c s) = Store_dispatch s a ->
  invoke this c s = (Returned tt, Store_dispatch s a) /\
  action_entityName a = entityName this /\
  action_op a = op_of c.
Proof.
  intros H. destruct (invoke_cases this c s) as [Hs|(payload & Hp)].
  - rewrite Hs in H. symmetry in H. destruct (Store_dispatch_neq _ _ H).
  - rewrite Hp in H |- *. simpl in H. apply Store_dispatch_inj in H as <-.
    repeat split.
Qed.

(** *** The operation tells the method *)

(** X1: an action a call dispatches carries the operation of the method
    called, which is never a [_SUCCESS] or [_ERROR] operation; and two
    dispatched actions with the same operation come from calls of the
    same method, whatever the dispatchers, arguments and stores. *)
Theorem op_identifies_method (this1 this2 : EntityDispatcher)
    (c1 c2 : Command) (s1 s2 : Store) (a1 a2 : EntityAction)
    (H1 : snd (invoke this1 c1 s1) = Store_dispatch s1 a1)
    (H2 : snd (invoke this2 c2 s2) = Store_dispatch s2 a2) :
  action_op a1 = op_of c1 /\
  isResultOp (action_op a1) = false /\
  (action_op a1 = action_op a2 -> method_name c1 = method_name c2).
Proof.
  apply invoke_action in H1 as (_ & _ & ->).
  apply invoke_action in H2 as (_ & _ & ->).
  split; [reflexivity|]. split.
  - destruct c1; reflexivity.
  - destruct c1, c2; simpl; intros H; (reflexivity || discriminate H).
Qed.

Lemma op_identifies_method_witness :
  action_op (new_EntityAction "Hero" SAVE_DELETE (VNum 1)) = SAVE_DELETE /\
  isResultOp SAVE_DELETE = false /\
  (SAVE_DELETE = action_op (new_EntityAction "Villain" SAVE_DELETE (VStr "k")) ->
   method_name (Delete (hero 1 "A")) = method_name (Delete (VStr "k"))).
Proof.
  apply (op_identifies_method hero_dispatcher villain_dispatcher
           (Delete (hero 1 "A")) (Delete (VStr "k")) idle_store idle_store
           (new_EntityAction "Hero" SAVE_DELETE (VNum 1))
           (new_EntityAction "Villain" SAVE_DELETE (VStr "k")));
    reflexivity.
Defined.

(** *** Methods that forward their argument *)

(** X2: [add], [addOneToCache], [addManyToCache], [addAllToCache],
    [getByKey], [getWithQuery], [setFilter], [getAll] and [clearCache]
    never throw and never consult the key selector: whatever the argument
    (also [null], [undefined] or an entity without key) and whatever the
    selector, they dispatch one action whose payload is the argument
    itself ([undefined] for the two methods without argument). *)
Theorem forwarding_methods_never_throw (this other : EntityDispatcher)
    (c : Command) (s : Store) (payload : Value)
    (Hc : passed_through c = Some payload)
    (Hname : entityName other = entityName this) :
  invoke this c s =
    (Returned tt,
     Store_dispatch s (new_EntityAction (entityName this) (op_of c) payload)) /\
  invoke other c s = invoke this c s.
Proof.
  destruct this as [name sel], other as [name' sel']. simpl in Hname. subst name'.
  destruct c; simpl in Hc; try discriminate Hc; injection Hc as <-;
    split; reflexivity.
Qed.

Lemma forwarding_methods_never_throw_witness :
  invoke hero_dispatcher (AddOneToCache VNull) idle_store =
    (Returned tt,
     Store_dispatch idle_store (new_EntityAction "Hero" ADD_ONE VNull)) /\
  invoke {| entityName := "Hero";
            selectId := fun _ => Threw (TypeError "no key") |}
         (AddOneToCache VNull) idle_store =
  invoke hero_dispatcher (AddOneToCache VNull) idle_store.
Proof.
  apply (forwarding_methods_never_throw hero_dispatcher
           {| entityName := "Hero";
              selectId := fun _ => Threw (TypeError "no key") |}
           (AddOneToCache VNull) idle_store VNull); reflexivity.
Defined.

(** *** Removing by entity and removing by key *)

(** X3: the two overloads of the remove commands agree.  For entities
    that the key selector maps to keys, [delete], [removeOneFromCache] and
    [removeManyFromCache] called with the entities do exactly what they do
    when called with those keys. *)
Theorem remove_by_entity_or_by_key (this : EntityDispatcher) (s : Store)
    (es ks : list Value)
    (H : Forall2 (fun e k => isEntity e = true /\ selectId this e = Returned k /\
                             isKey k = true) es ks) :
  removeManyFromCache this (ArgArray es) s =
    removeManyFromCache this (ArgArray ks) s /\
  Forall2 (fun e k => delete this e s = delete this k s /\
                      removeOneFromCache this e s = removeOneFromCache this k s)
    es ks.
Proof.
  split.
  - destruct H as [|e k es ks (He & Hk & Hkey) Hrest]; [reflexivity|].
    rewrite removeManyFromCache_object_first by (by apply isEntity_typeof).
    rewrite removeManyFromCache_primitive_first by (by apply isKey_typeof).
    assert (Js.map (getKey this) (e :: es) = Returned (k :: ks)) as ->;
      [|reflexivity].
    apply map_returned. constructor.
    + rewrite getKey_object by (by apply isEntity_typeof). exact Hk.
    + eapply Forall2_impl; [exact Hrest|]. intros e' k' (He' & Hk' & _). simpl.
      rewrite getKey_object by (by apply isEntity_typeof). exact Hk'.
  - eapply Forall2_impl; [exact H|]. intros e k (He & Hk & Hkey). simpl.
    unfold delete, removeOneFromCache. rewrite !bind_eval.
    rewrite (getKey_object this e) by (by apply isEntity_typeof).
    rewrite (getKey_primitive this k) by (by apply isKey_typeof).
    rewrite Hk. split; reflexivity.
Qed.

Lemma remove_by_entity_or_by_key_witness :
  removeManyFromCache villain_dispatcher
    (ArgArray [villain "k1" "X"; villain "k2" "Y"]) idle_store =
  removeManyFromCache villain_dispatcher
    (ArgArray [VStr "k1"; VStr "k2"]) idle_store.
Proof.
  apply (remove_by_entity_or_by_key villain_dispatcher idle_store
           [villain "k1" "X"; villain "k2" "Y"] [VStr "k1"; VStr "k2"]).
  repeat constructor.
Defined.

(** *** A bulk command on one element *)

(** X4: on a one-element array the bulk commands do what the single
    commands do, with the payload wrapped in an array: the payload of
    [removeManyFromCache([x])] is [[getKey(x)]] whether [x] is a key or an
    entity, the payload of [updateManyInCache([x])] is [[toUpdate(x)]],
    and each bulk command throws exactly when the single one does, with
    the same error. *)
Theorem bulk_of_one_is_single (this : EntityDispatcher) (s : Store) (x : Value) :
  removeManyFromCache this (ArgArray [x]) s =
    match getKey this x with
    | Returned k =>
        (Returned tt,
         Store_dispatch s
           (new_EntityAction (entityName this) REMOVE_MANY (VArr [k])))
    | Threw err => (Threw err, s)
    end /\
  removeOneFromCache this x s =
    match getKey this x with
    | Returned k =>
        (Returned tt,
         Store_dispatch s (new_EntityAction (entityName this) REMOVE_ONE k))
    | Threw err => (Threw err, s)
    end /\
  updateManyInCache this (ArgArray [x]) s =
    match toUpdate this x with
    | Returned u =>
        (Returned tt,
         Store_dispatch s
           (new_EntityAction (entityName this) UPDATE_MANY (VArr [u])))
    | Threw err => (Threw err, s)
    end /\
  updateOneInCache this x s =
    match toUpdate this x with
    | Returned u =>
        (Returned tt,
         Store_dispatch s (new_EntityAction (entityName this) UPDATE_ONE u))
    | Threw err => (Threw err, s)
    end.
Proof.
  split; [|split; [|split]].
  - destruct (decide (typeof x = "object")) as [Hobj|Hobj].
    + rewrite removeManyFromCache_object_first by done. simpl.
      destruct (getKey this x); reflexivity.
    + rewrite removeManyFromCache_primitive_first by done.
      rewrite getKey_primitive by done. reflexivity.
  - unfold removeOneFromCache. rewrite bind_eval.
    destruct (getKey this x); reflexivity.
  - rewrite updateManyInCache_nonempty. simpl.
    destruct (toUpdate this x); reflexivity.
  - unfold updateOneInCache. rewrite bind_eval.
    destruct (toUpdate this x); reflexivity.
Qed.

(** *** What a dispatched update holds *)

Lemma Update_fields id e :
  Update_id (UpdateT id e) = Some id /\ Update_changes (UpdateT id e) = Some e.
Proof. split; reflexivity. Qed.

Lemma map_toUpdate_reads_back this items us :
  Js.map (toUpdate this) items = Returned us ->
  Update_changes <$> us = Some <$> items /\
  Forall (fun u => exists id e,
            Update_id u = Some id /\ Update_changes u = Some e /\
            selectId this e = Returned id) us.
Proof.
  intros Hm. apply map_returned in Hm.
  induction Hm as [|x u xs us' Hx _ [IH1 IH2]]; [split; [reflexivity|constructor]|].
  apply toUpdate_returned in Hx as (k & Hk & ->).
  split.
  - rewrite !fmap_cons, IH1. reflexivity.
  - constructor; [|exact IH2]. exists k, x. repeat split. exact Hk.
Qed.

(** X5: every [Update<T>] record that [update], [updateOneInCache] or
    [updateManyInCache] dispatches can be read back: its [changes] field
    is the argument (for the bulk command, the [changes] fields taken in
    order are the argument array, so no element is dropped, added or
    reordered), and its [id] field is what the key selector returns on
    those very changes. *)
Theorem dispatched_update_reads_back (this : EntityDispatcher) (s : Store) :
  (forall e a,
     snd (update this e s) = Store_dispatch s a \/
     snd (updateOneInCache this e s) = Store_dispatch s a ->
     Update_changes (action_payload a) = Some e /\
     exists id, Update_id (action_payload a) = Some id /\
                selectId this e = Returned id) /\
  (forall items a,
     snd (updateManyInCache this (ArgArray items) s) = Store_dispatch s a ->
     exists updates,
       action_payload a = VArr updates /\
       Update_changes <$> updates = Some <$> items /\
       Forall (fun u => exists id e,
                 Update_id u = Some id /\ Update_changes u = Some e /\
                 selectId this e = Returned id) updates).
Proof.
  split.
  - intros e a [H|H];
      [rewrite update_eq in H|rewrite updateOneInCache_eq in H];
      (destruct (selectId this e) as [k|err] eqn:Hk; simpl in H;
       [apply Store_dispatch_inj in H as <-; simpl; split; [reflexivity|];
        exists k; split; reflexivity
       |symmetry in H; destruct (Store_dispatch_neq _ _ H)]).
  - intros [|first rest] a H.
    { simpl in H. symmetry in H. destruct (Store_dispatch_neq _ _ H). }
    rewrite updateManyInCache_nonempty in H.
    destruct (Js.map (toUpdate this) (first :: rest)) as [us|err] eqn:Hm;
      simpl in H; [|symmetry in H; destruct (Store_dispatch_neq _ _ H)].
    apply Store_dispatch_inj in H as <-.
    exists us. split; [reflexivity|]. by apply map_toUpdate_reads_back.
Qed.

Lemma dispatched_update_reads_back_witness :
  Update_changes
    (action_payload
       (new_EntityAction "Hero" SAVE_UPDATE (UpdateT (VNum 1) (hero 1 "B"))))
  = Some (hero 1 "B") /\
  exists id,
    Update_id
      (action_payload
         (new_EntityAction "Hero" SAVE_UPDATE (UpdateT (VNum 1) (hero 1 "B"))))
    = Some id /\
    selectId hero_dispatcher (hero 1 "B") = Returned id.
Proof.
  apply (dispatched_update_reads_back hero_dispatcher idle_store).
  left. reflexivity.
Defined.

(** *** When the default key selector throws *)

Lemma get_id_threw (v : Value) :
  (exists err, get_id v = Threw err) <-> v = VNull \/ v = VUndefined.
Proof.
  split.
  - intros [err H]. destruct v; simpl in H; try discriminate H; auto.
  - intros [->| ->]; simpl; eauto.
Qed.

(** [Js.map] throws exactly when the callback throws on some element. *)
Lemma map_threw_iff (f : Value -> Outcome Value) (items : list Value) :
  (exists err, Js.map f items = Threw err) <->
  exists x, x ∈ items /\ exists err, f x = Threw err.
Proof.
  split.
  - intros [err H]. apply map_threw in H as (x & Hin & Hx). eauto.
  - intros (x & Hin & err & Hx).
    induction items as [|y items IH]; [by apply elem_of_nil in Hin|].
    simpl. destruct (f y) as [v|e] eqn:Hy; simpl; [|eauto].
    apply elem_of_cons in Hin as [->|Hin]; [congruence|].
    destruct (IH Hin) as [e He]. rewrite He. simpl. eauto.
Qed.

Lemma bind_eval_raises {A : Type} (o : Outcome A) (k : A -> Cmd unit) (s : Store) :
  (forall a, exists s', k a s = (Returned tt, s')) ->
  raises_synchronously (eval o ≫= k) s <-> exists err, o = Threw err.
Proof.
  intros Hk. unfold raises_synchronously. rewrite bind_eval.
  destruct o as [a|e].
  - destruct (Hk a) as [s' ->]. split; intros [err H]; discriminate H.
  - split; intros _; eauto.
Qed.

(** X6: with the default key selector the only arguments a command throws
    on are [null] and [undefined].  [delete] and [removeOneFromCache]
    throw exactly on [null] ([undefined] is not an object and is passed
    on); [update] and [updateOneInCache] throw exactly on [null] and
    [undefined]; [removeManyFromCache] throws exactly when the first
    element is of type object and some element is [null];
    [updateManyInCache] throws exactly when some element is [null] or
    [undefined].  In each case nothing is dispatched. *)
Theorem default_selector_throws_on_nullish_only (name : string) (s : Store) :
  let d := EntityDispatcher_new name None in
  (forall arg, raises_synchronously (delete d arg) s <-> arg = VNull) /\
  (forall arg, raises_synchronously (removeOneFromCache d arg) s <-> arg = VNull) /\
  (forall arg,
     raises_synchronously (update d arg) s <-> arg = VNull \/ arg = VUndefined) /\
  (forall arg,
     raises_synchronously (updateOneInCache d arg) s <->
     arg = VNull \/ arg = VUndefined) /\
  (forall items,
     raises_synchronously (removeManyFromCache d (ArgArray items)) s <->
     typeof (Js.index (ArgArray items) 0) = "object" /\ VNull ∈ items) /\
  (forall items,
     raises_synchronously (updateManyInCache d (ArgArray items)) s <->
     VNull ∈ items \/ VUndefined ∈ items).
Proof.
  intros d.
  assert (Hd : forall op v, exists s', dispatch d op v s = (Returned tt, s')).
  { intros op v. eexists. reflexivity. }
  assert (HgetKey : forall arg,
            (exists err, getKey d arg = Threw err) <-> arg = VNull).
  { intros arg. split.
    - intros [err H]. destruct arg; simpl in H; try discriminate H; auto.
    - intros ->. simpl. eauto. }
  assert (HtoUpdate : forall arg,
            (exists err, toUpdate d arg = Threw err) <->
            arg = VNull \/ arg = VUndefined).
  { intros arg. rewrite <- get_id_threw. split; intros [err H]; exists err.
    - by apply toUpdate_threw in H.
    - by apply toUpdate_threw. }
  split; [|split; [|split; [|split; [|split]]]].
  - intros arg. unfold delete. rewrite bind_eval_raises by auto. apply HgetKey.
  - intros arg. unfold removeOneFromCache. rewrite bind_eval_raises by auto.
    apply HgetKey.
  - intros arg. unfold update. rewrite bind_eval_raises by auto. apply HtoUpdate.
  - intros arg. unfold updateOneInCache. rewrite bind_eval_raises by auto.
    apply HtoUpdate.
  - intros [|first rest].
    + split.
      * intros [err H]. discriminate H.
      * intros [H _]. discriminate H.
    + change (Js.index (ArgArray (first :: rest)) 0) with first.
      destruct (decide (typeof first = "object")) as [Hobj|Hobj].
      * unfold raises_synchronously.
        rewrite removeManyFromCache_object_first by done.
        split.
        -- intros [err H]. split; [done|].
           destruct (Js.map (getKey d) (first :: rest)) as [ks|e] eqn:Hm;
             [discriminate H|].
           apply map_threw in Hm as (x & Hin & Hx).
           assert (x = VNull) as -> by (apply HgetKey; eauto). exact Hin.
        -- intros [_ Hin].
           destruct (proj2 (map_threw_iff (getKey d) (first :: rest)))
             as [err ->]; [|eauto].
           exists VNull. split; [exact Hin|]. apply HgetKey. reflexivity.
      * unfold raises_synchronously.
        rewrite removeManyFromCache_primitive_first by done.
        split; [intros [err H]; discriminate H|intros [H _]; done].
  - intros [|first rest].
    + split.
      * intros [err H]. discriminate H.
      * intros [H|H]; by apply elem_of_nil in H.
    + unfold raises_synchronously. rewrite updateManyInCache_nonempty.
      split.
      * intros [err H].
        destruct (Js.map (toUpdate d) (first :: rest)) as [us|e] eqn:Hm;
          [discriminate H|].
        apply map_threw in Hm as (x & Hin & Hx).
        destruct (proj1 (HtoUpdate x)) as [->| ->]; eauto.
      * intros H.
        destruct (proj2 (map_threw_iff (toUpdate d) (first :: rest)))
          as [err ->]; [|eauto].
        destruct H as [H|H]; [exists VNull|exists VUndefined];
          (split; [exact H|]); apply HtoUpdate; auto.
Qed.

Lemma default_selector_throws_on_nullish_only_witness :
  raises_synchronously (delete hero_dispatcher VNull) idle_store /\
  ~ raises_synchronously (delete hero_dispatcher VUndefined) idle_store /\
  raises_synchronously
    (removeManyFromCache hero_dispatcher (ArgArray [hero 1 "A"; VNull]))
    idle_store /\
  ~ raises_synchronously
      (removeManyFromCache hero_dispatcher (ArgArray [VNum 1; VNull]))
      idle_store.
Proof.
  destruct (default_selector_throws_on_nullish_only "Hero" idle_store)
    as (Hdel & _ & _ & _ & Hmany & _).
  split; [by apply Hdel|]. split.
  - intros H. apply Hdel in H. discriminate H.
  - split.
    + apply Hmany. split; [reflexivity|]. apply list_elem_of_further, list_elem_of_here.
    + intros H. apply Hmany in H as [H _]. discriminate H.
Defined.

(** *** When the default key selector yields no key *)

Lemma remove_payload_iff this s arg v :
  (delete this arg s =
     (Returned tt,
      Store_dispatch s (new_EntityAction (entityName this) SAVE_DELETE v))
   <-> getKey this arg = Returned v) /\
  (removeOneFromCache this arg s =
     (Returned tt,
      Store_dispatch s (new_EntityAction (entityName this) REMOVE_ONE v))
   <-> getKey this arg = Returned v).
Proof.
  unfold delete, removeOneFromCache. rewrite !bind_eval.
  destruct (getKey this arg) as [k|err]; rewrite ?dispatch_eq.
  - split; (split; [|by intros [= ->]]); intros H;
      apply (f_equal snd) in H; simpl in H;
      apply Store_dispatch_inj in H; congruence.
  - split; split; discriminate.
Qed.

(** X7: with the default key selector, [delete] and [removeOneFromCache]
    dispatch an [undefined] key, without any error, exactly when the
    argument is [undefined], an array, or an object whose [id] field is
    missing or [undefined]. *)
Theorem default_selector_undefined_key (name : string) (s : Store) (arg : Value) :
  let d := EntityDispatcher_new name None in
  let lost :=
    arg = VUndefined \/ (exists items, arg = VArr items) \/
    (exists fields, arg = VObj fields /\
                    default VUndefined (own fields "id") = VUndefined) in
  (delete d arg s =
     (Returned tt,
      Store_dispatch s (new_EntityAction name SAVE_DELETE VUndefined)) <-> lost) /\
  (removeOneFromCache d arg s =
     (Returned tt,
      Store_dispatch s (new_EntityAction name REMOVE_ONE VUndefined)) <-> lost).
Proof.
  intros d lost.
  assert (Hkey : getKey d arg = Returned VUndefined <-> lost).
  { subst lost. destruct arg as [| |b|n|str|fields|items]; simpl;
      (split; [intros H|intros [H|[[? H]|(? & H & Hid)]]]);
      try discriminate H; eauto.
    - injection H as H. eauto.
    - injection H as <-.
      change (Returned (default VUndefined (own fields "id")) = Returned VUndefined).
      by rewrite Hid. }
  rewrite <- Hkey.
  destruct (remove_payload_iff d s arg VUndefined) as [H1 H2].
  split; [exact H1|exact H2].
Qed.

Lemma default_selector_undefined_key_witness :
  delete hero_dispatcher (VObj [("name", VStr "B")]) idle_store =
    (Returned tt,
     Store_dispatch idle_store (new_EntityAction "Hero" SAVE_DELETE VUndefined)) /\
  delete hero_dispatcher (VArr [VNum 1]) idle_store =
    (Returned tt,
     Store_dispatch idle_store (new_EntityAction "Hero" SAVE_DELETE VUndefined)).
Proof.
  split.
  - apply (default_selector_undefined_key "Hero" idle_store
             (VObj [("name", VStr "B")])).
    right. right. eexists. split; reflexivity.
  - apply (default_selector_undefined_key "Hero" idle_store (VArr [VNum 1])).
    right. left. eexists. reflexivity.
Defined.

(** *** Calls made one after the other *)

Lemma foldl_Store_dispatch (s : Store) (acts : list EntityAction) :
  dispatched (foldl Store_dispatch s acts) = dispatched s ++ acts /\
  state (foldl Store_dispatch s acts) = foldl (reducer s) (state s) acts /\
  reducer (foldl Store_dispatch s acts) = reducer s.
Proof.
  revert s. induction acts as [|a acts IH]; intros s; simpl.
  - by rewrite app_nil_r.
  - destruct (IH (Store_dispatch s a)) as (-> & -> & ->). simpl.
    by rewrite <- app_assoc.
Qed.

(** What a call does to any store is what it does to a store that has
    seen no action. *)
Lemma invoke_emitted (this : EntityDispatcher) (c : Command) (s : Store) :
  invoke this c s =
  (fst (invoke this c idle_store), foldl Store_dispatch s (emitted this c)).
Proof.
  destruct (invoke_uniform this c) as (o & acts & _ & H).
  unfold emitted. rewrite (H idle_store), (H s). simpl.
  destruct (foldl_Store_dispatch idle_store acts) as (-> & _). reflexivity.
Qed.

(** X8: calls made one after the other hand the store the actions of
    each call, in the order of the calls.  While no call throws, the
    store ends with the earlier actions followed by those of every call,
    its state is the reducer folded over the new actions, and its reducer
    is untouched; the first call that throws ends the sequence with that
    store, and no later call dispatches anything. *)
Theorem invokeAll_emits_in_order (this : EntityDispatcher)
    (pre : list Command) (s : Store)
    (Hpre : Forall (fun c => throws this c = false) pre) :
  let acts := concat (emitted this <$> pre) in
  let s' := foldl Store_dispatch s acts in
  invokeAll this pre s = (Returned tt, s') /\
  dispatched s' = dispatched s ++ acts /\
  state s' = foldl (reducer s) (state s) acts /\
  reducer s' = reducer s /\
  (List.length acts <= List.length pre)%nat /\
  forall c post,
    throws this c = true ->
    exists err, invokeAll this (pre ++ c :: post) s = (Threw err, s').
Proof.
  intros acts s'.
  destruct (foldl_Store_dispatch s acts) as (Hd & Hs & Hr).
  split; [|split; [exact Hd|split; [exact Hs|split; [exact Hr|split]]]].
  - clear Hd Hs Hr. subst s' acts. revert s.
    induction Hpre as [|c pre Hc _ IH]; intros s.
    + reflexivity.
    + simpl. unfold mbind, Cmd_bind. rewrite (invoke_emitted this c s).
      unfold throws in Hc.
      destruct (fst (invoke this c idle_store)) as [[]|e]; [|discriminate Hc].
      rewrite IH, foldl_app. reflexivity.
  - subst acts. clear. induction pre as [|c pre IH]; simpl; [lia|].
    rewrite length_app.
    destruct (invoke_uniform this c) as (o & acts & Hlen & H).
    unfold emitted at 1. rewrite (H idle_store). simpl.
    destruct (foldl_Store_dispatch idle_store acts) as (-> & _). simpl.
    change (list_fmap Command (list EntityAction) (emitted this) pre)
      with (emitted this <$> pre). lia.
  - intros c post Hc. subst s' acts. clear Hd Hs Hr. revert s.
    induction Hpre as [|c' pre Hc' _ IH]; intros s.
    + simpl. unfold mbind, Cmd_bind. rewrite (invoke_emitted this c s).
      unfold throws in Hc.
      destruct (fst (invoke this c idle_store)) as [[]|e] eqn:Hfst;
        [discriminate Hc|].
      exists e. f_equal.
      destruct (invoke_cases this c idle_store) as [Hsame|(p & Hp)].
      * unfold emitted. rewrite Hsame. reflexivity.
      * rewrite Hp in Hfst. discriminate Hfst.
    + simpl. unfold mbind, Cmd_bind. rewrite (invoke_emitted this c' s).
      unfold throws in Hc'.
      destruct (fst (invoke this c' idle_store)) as [[]|e]; [|discriminate Hc'].
      destruct (IH (foldl Store_dispatch s (emitted this c'))) as [err Herr].
      exists err. rewrite foldl_app. exact Herr.
Qed.

Lemma invokeAll_emits_in_order_witness :
  invokeAll hero_dispatcher
    [Add (hero 1 "A"); RemoveManyFromCache (ArgArray []); Delete (VNum 1)]
    idle_store =
  (Returned tt,
   foldl Store_dispatch idle_store
     [new_EntityAction "Hero" SAVE_ADD (hero 1 "A");
      new_EntityAction "Hero" SAVE_DELETE (VNum 1)]) /\
  exists err,
    invokeAll hero_dispatcher
      ([Add (hero 1 "A"); RemoveManyFromCache (ArgArray []); Delete (VNum 1)]
         ++ Update VNull :: [GetAll])
      idle_store =
    (Threw err,
     foldl Store_dispatch idle_store
       [new_EntityAction "Hero" SAVE_ADD (hero 1 "A");
        new_EntityAction "Hero" SAVE_DELETE (VNum 1)]).
Proof.
  assert (Hpre : Forall (fun c => throws hero_dispatcher c = false)
                   [Add (hero 1 "A"); RemoveManyFromCache (ArgArray []);
                    Delete (VNum 1)])
    by (repeat constructor).
  destruct (invokeAll_emits_in_order hero_dispatcher _ idle_store Hpre)
    as (Hrun & _ & _ & _ & _ & Hthrow).
  split; [exact Hrun|].
  apply (Hthrow (Update VNull) [GetAll]). reflexivity.
Defined.

(** *** The demo application's key selector and the factory *)

(** X9: the [selectId] of the demo application's metadata is not
    necessary, as its comment says: a dispatcher configured with it does,
    on every call and every store, what a dispatcher without configured
    selector does.  And [createEntityDispatcher] yields the dispatcher the
    constructor yields, whether or not a selector is passed. *)
Theorem metadata_selectId_is_the_default (name : string)
    (configured : option IdSelector) (c : Command) (s : Store) :
  invoke (createEntityDispatcher name (Some EntityMetadata.selectId)) c s =
    invoke (createEntityDispatcher name None) c s /\
  invoke (EntityDispatcher_new name (Some EntityMetadata.selectId)) c s =
    invoke (EntityDispatcher_new name None) c s /\
  createEntityDispatcher name configured = EntityDispatcher_new name configured.
Proof.
  split; [reflexivity|]. split; [reflexivity|].
  destruct configured; reflexivity.
Qed.

(** *** The first failing element of a bulk command *)

Lemma map_first_throw (f : Value -> Outcome Value) (pre : list Value)
    (x : Value) (post : list Value) (err : Error) :
  Forall (fun y => exists k, f y = Returned k) pre ->
  f x = Threw err ->
  Js.map f (pre ++ x :: post) = Threw err.
Proof.
  intros Hpre Hx. induction Hpre as [|y pre [k Hy] _ IH]; simpl.
  - rewrite Hx. reflexivity.
  - rewrite Hy, IH. reflexivity.
Qed.

(** X10: a bulk command raises the error of the first element on which
    the key selector throws, whatever follows that element, and
    dispatches nothing: the elements before it do not reach the store
    either. *)
Theorem bulk_reports_first_failure (this : EntityDispatcher) (s : Store)
    (pre : list Value) (x : Value) (post : list Value) (err : Error)
    (Hpre : Forall (fun y => exists k, selectId this y = Returned k) pre)
    (Hx : selectId this x = Threw err) :
  updateManyInCache this (ArgArray (pre ++ x :: post)) s = (Threw err, s) /\
  (Forall (fun y => typeof y = "object") (pre ++ [x]) ->
   removeManyFromCache this (ArgArray (pre ++ x :: post)) s = (Threw err, s)).
Proof.
  split.
  - assert (Hm : Js.map (toUpdate this) (pre ++ x :: post) = Threw err).
    { apply map_first_throw; [|by apply toUpdate_threw].
      eapply Forall_impl; [exact Hpre|]. intros y [k Hk].
      exists (UpdateT k y). apply toUpdate_returned. eauto. }
    destruct (pre ++ x :: post) as [|first rest] eqn:Hitems.
    + by destruct pre.
    + rewrite updateManyInCache_nonempty, Hm. reflexivity.
  - intros Hobj. apply Forall_app in Hobj as [Hobj Hxobj].
    apply Forall_inv in Hxobj.
    assert (Hm : Js.map (getKey this) (pre ++ x :: post) = Threw err).
    { apply map_first_throw; [|by rewrite getKey_object].
      clear -Hpre Hobj. induction Hpre as [|y pre [k Hk] _ IH]; [constructor|].
      apply Forall_cons in Hobj as [Hy Hobj].
      constructor; [|by apply IH]. exists k. by rewrite getKey_object. }
    assert (Hfirst : typeof (Js.index (ArgArray (pre ++ x :: post)) 0) = "object").
    { destruct Hobj; simpl; assumption. }
    destruct (pre ++ x :: post) as [|first rest] eqn:Hitems.
    + by destruct pre.
    + rewrite removeManyFromCache_object_first by exact Hfirst.
      rewrite Hm. reflexivity.
Qed.

Lemma bulk_reports_first_failure_witness :
  updateManyInCache hero_dispatcher
    (ArgArray ([hero 1 "A"] ++ VNull :: [VUndefined])) idle_store =
    (Threw (TypeError "Cannot read property 'id' of null"), idle_store) /\
  (Forall (fun y => typeof y = "object") ([hero 1 "A"] ++ [VNull]) ->
   removeManyFromCache hero_dispatcher
     (ArgArray ([hero 1 "A"] ++ VNull :: [VUndefined])) idle_store =
     (Threw (TypeError "Cannot read property 'id' of null"), idle_store)).
Proof.
  apply (bulk_reports_first_failure hero_dispatcher idle_store
           [hero 1 "A"] VNull [VUndefined]
           (TypeError "Cannot read property 'id' of null")).
  - constructor; [eexists; reflexivity|constructor].
  - reflexivity.
Defined.
